(** * Library Management API: loan lifecycle and inventory accounting

    A shallow embedding of [src/api/main.py].  Every route handler of the
    source that writes to the database is a function from the storage
    before the request to the value the handler returns (or the exception
    it raises) and the storage after it.  The SQL statements the handlers
    send are functions over tables, tables are lists of rows, and the
    connection keeps the usual split between committed data and the data
    of the open transaction, so that [commit], [rollback] and the
    [finally] blocks mean what they mean in the source. *)

From Stdlib Require Import ZArith List String Bool Lia.
Import ListNotations.
Open Scope string_scope.
Open Scope list_scope.
Open Scope Z_scope.

(** ** Data model *)

(** [datetime.date], counted in days: [d + timedelta(days=14)] is [d + 14]. *)
Definition date := Z.

Module MemberBase.
Record t := mk {
  first_name : string;
  last_name : string;
  email : string;
  phone_number : option string;
  membership_status : string }.
End MemberBase.

Module Member.
Record t := mk { member_id : Z; fields : MemberBase.t }.
End Member.

Module BookBase.
Record t := mk {
  isbn : string;
  title : string;
  author : string;
  genre : option string;
  available_copies : Z;
  total_copies : Z }.
End BookBase.

Module Book.
Record t := mk { book_id : Z; fields : BookBase.t }.
Definition available_copies (b : t) : Z := BookBase.available_copies (fields b).
Definition total_copies (b : t) : Z := BookBase.total_copies (fields b).
End Book.

Module LoanBase.
Record t := mk {
  book_id : Z;
  member_id : Z;
  due_date : option date;
  status : string }.
(** [status: str = "Borrowed"], [due_date: Optional[date] = None]: a field
    the request body leaves out takes the default of the class. *)
Definition of_body (book_id member_id : Z) (due_date : option date)
  (status : option string) : t :=
  mk book_id member_id due_date
     (match status with Some s => s | None => "Borrowed" end).
End LoanBase.

Module Loan.
Record t := mk {
  loan_id : Z;
  book_id : Z;
  member_id : Z;
  due_date : option date;
  status : string;
  loan_date : date;
  return_date : option date }.
End Loan.

(** Modelled from the spec: the table definitions (the SQL schema) are not
    part of [src/].  Following the data model of the spec, each table has a
    generated unique id, [members.email] and [books.isbn] are unique, the
    counters are plain integers, a new loan has no return date, and no
    other constraint is declared.  Text is compared exactly. *)
Record Tables := {
  members : list Member.t;
  books : list Book.t;
  loans : list Loan.t }.

(** The AUTO_INCREMENT counters of the three tables.  They are kept apart
    from the rows: a rollback gives back rows, not generated ids. *)
Record AutoIncrement := {
  next_member_id : Z;
  next_book_id : Z;
  next_loan_id : Z }.

Record Storage := { tables : Tables; auto_increment : AutoIncrement }.

(** ** Exceptions *)

(** [mysql.connector.Error]; [str e] is its message. *)
Inductive Error := mysql_Error (msg : string).

Definition str (e : Error) : string := let 'mysql_Error m := e in m.

Inductive Exception :=
| HTTPException (status_code : Z) (detail : string)
| DatabaseError (e : Error).

Inductive Outcome (A : Type) :=
| Returns (a : A)
| Raises (e : Exception).
Arguments Returns {A} a.
Arguments Raises {A} e.

(** Python's [sub in s] on strings. *)
Definition contains (sub s : string) : bool :=
  match String.index 0 sub s with Some _ => true | None => false end.

(** ** The world outside the handlers *)

(** What a request cannot control: the two clocks ([date.today()] of the
    process and [CURDATE()] of the server), whether the connection can be
    opened, which statements of the request the server fails ([faults env n]
    for the [n]-th statement sent on the connection, counted from 0, a
    commit included), and what [cursor.lastrowid] reads once an UPDATE has
    run after an INSERT, as a function of the id the INSERT generated. *)
Record Env := {
  date_today : date;
  CURDATE : date;
  connect_fails : bool;
  faults : nat -> bool;
  lastrowid_after_update : Z -> Z }.

(** ** Connection, cursor and transaction *)

Record Connection := {
  committed : Tables;
  working : Tables;
  counters : AutoIncrement;
  lastrowid : Z;
  executed : nat }.

Definition M (A : Type) : Type := Env -> Connection -> Outcome A * Connection.

Definition ret {A} (a : A) : M A := fun _ c => (Returns a, c).

Definition raise {A} (e : Exception) : M A := fun _ c => (Raises e, c).

Definition bind {A B} (m : M A) (k : A -> M B) : M B :=
  fun env c =>
    match m env c with
    | (Returns a, c') => k a env c'
    | (Raises e, c') => (Raises e, c')
    end.

Notation "x <- m ;; k" := (bind m (fun x => k))
  (at level 61, m at next level, right associativity).
Notation "m ;; k" := (bind m (fun _ => k))
  (at level 61, right associativity).

Definition lost_connection : Error :=
  mysql_Error "2013 (HY000): Lost connection to MySQL server during query".

Definition duplicate_entry (value key : string) : Error :=
  mysql_Error ("1062 (23000): Duplicate entry '" ++ value ++ "' for key '" ++ key ++ "'")%string.

Definition sent (c : Connection) : Connection :=
  {| committed := committed c; working := working c; counters := counters c;
     lastrowid := lastrowid c; executed := S (executed c) |}.

Definition set_working (t : Tables) (c : Connection) : Connection :=
  {| committed := committed c; working := t; counters := counters c;
     lastrowid := lastrowid c; executed := executed c |}.

Definition set_committed (t : Tables) (c : Connection) : Connection :=
  {| committed := t; working := working c; counters := counters c;
     lastrowid := lastrowid c; executed := executed c |}.

Definition set_lastrowid (id : Z) (c : Connection) : Connection :=
  {| committed := committed c; working := working c; counters := counters c;
     lastrowid := id; executed := executed c |}.

Definition set_counters (a : AutoIncrement) (c : Connection) : Connection :=
  {| committed := committed c; working := working c; counters := a;
     lastrowid := lastrowid c; executed := executed c |}.

(** One round trip to the server: it raises [Error] when the environment
    fails this statement, and runs it on the open transaction otherwise. *)
Definition statement {A} (run : M A) : M A :=
  fun env c =>
    if faults env (executed c)
    then (Raises (DatabaseError lost_connection), sent c)
    else run env (sent c).

(** [cursor.execute(SELECT ...)] followed by [cursor.fetchone()]. *)
Definition fetchone {A} (query : Tables -> list A) : M (option A) :=
  statement (fun _ c => (Returns (hd_error (query (working c))), c)).

(** [cursor.execute] of an UPDATE or a DELETE; [stmt] answers with the new
    tables or with the server's error. *)
Definition execute (stmt : Tables -> Tables + Error) : M unit :=
  statement (fun env c =>
    match stmt (working c) with
    | inl t => (Returns tt,
                set_lastrowid (lastrowid_after_update env (lastrowid c)) (set_working t c))
    | inr e => (Raises (DatabaseError e), c)
    end).

(** [cursor.execute] of an INSERT: the server draws the id of the new row
    from the table's counter, and the cursor remembers it. *)
Definition execute_insert (next : AutoIncrement -> Z) (advance : AutoIncrement -> AutoIncrement)
  (stmt : Z -> Tables -> Tables + Error) : M unit :=
  statement (fun _ c =>
    match stmt (next (counters c)) (working c) with
    | inl t => (Returns tt,
                set_lastrowid (next (counters c))
                  (set_counters (advance (counters c)) (set_working t c)))
    | inr e => (Raises (DatabaseError e), c)
    end).

Definition cursor_lastrowid : M Z := fun _ c => (Returns (lastrowid c), c).

Definition commit : M unit :=
  statement (fun _ c => (Returns tt, set_committed (working c) c)).

Definition rollback : M unit :=
  fun _ c => (Returns tt, set_working (committed c) c).

(** [cursor.close(); conn.close()]: what was not committed is gone. *)
Definition close : M unit :=
  fun _ c => (Returns tt, set_working (committed c) c).

Definition today : M date := fun env c => (Returns (date_today env), c).

Definition curdate : M date := fun env c => (Returns (CURDATE env), c).

(** [try: body except Error as e: handler e]: an [HTTPException] raised in
    the body is not an [Error] and passes through. *)
Definition try_except_Error {A} (body : M A) (handler : Error -> M A) : M A :=
  fun env c =>
    match body env c with
    | (Raises (DatabaseError e), c') => handler e env c'
    | r => r
    end.

Definition finally {A} (body : M A) (cleanup : M unit) : M A :=
  fun env c =>
    let (o, c') := body env c in
    let (_, c'') := cleanup env c' in
    (o, c'').

Definition get_db_connection (env : Env) (s : Storage) : Outcome Connection :=
  if connect_fails env
  then Raises (HTTPException 500 "Database connection error")
  else Returns {| committed := tables s; working := tables s;
                  counters := auto_increment s; lastrowid := 0; executed := 0%nat |}.

(** A route handler: the storage the next request sees is what the
    connection committed. *)
Definition Handler (A : Type) : Type := Env -> Storage -> Outcome A * Storage.

Definition with_connection {A} (body : M A) : Handler A :=
  fun env s =>
    match get_db_connection env s with
    | Raises e => (Raises e, s)
    | Returns conn =>
        let (o, c) := body env conn in
        (o, {| tables := committed c; auto_increment := counters c |})
    end.

(** ** The SQL statements of the source *)

Definition set_members (ms : list Member.t) (t : Tables) : Tables :=
  {| members := ms; books := books t; loans := loans t |}.

Definition set_books (bs : list Book.t) (t : Tables) : Tables :=
  {| members := members t; books := bs; loans := loans t |}.

Definition set_loans (ls : list Loan.t) (t : Tables) : Tables :=
  {| members := members t; books := books t; loans := ls |}.

Definition email_of (m : Member.t) : string := MemberBase.email (Member.fields m).

Definition isbn_of (b : Book.t) : string := BookBase.isbn (Book.fields b).

(** [SELECT * FROM members WHERE member_id = %s] *)
Definition select_members (member_id : Z) (t : Tables) : list Member.t :=
  filter (fun m => Member.member_id m =? member_id) (members t).

(** [SELECT * FROM books WHERE book_id = %s] *)
Definition select_books (book_id : Z) (t : Tables) : list Book.t :=
  filter (fun b => Book.book_id b =? book_id) (books t).

(** [SELECT * FROM loans WHERE loan_id = %s] *)
Definition select_loans (loan_id : Z) (t : Tables) : list Loan.t :=
  filter (fun l => Loan.loan_id l =? loan_id) (loans t).

(** [status != 'Returned'] *)
Definition not_returned (l : Loan.t) : bool :=
  negb (Loan.status l =? "Returned")%string.

(** [SELECT * FROM loans WHERE member_id = %s AND status != 'Returned'] *)
Definition select_active_loans_of_member (member_id : Z) (t : Tables) : list Loan.t :=
  filter (fun l => (Loan.member_id l =? member_id) && not_returned l) (loans t).

(** [SELECT * FROM loans WHERE book_id = %s AND status != 'Returned'] *)
Definition select_active_loans_of_book (book_id : Z) (t : Tables) : list Loan.t :=
  filter (fun l => (Loan.book_id l =? book_id) && not_returned l) (loans t).

(** [INSERT INTO members (first_name, last_name, email, phone_number,
    membership_status) VALUES (...)] *)
Definition insert_into_members (f : MemberBase.t) (id : Z) (t : Tables) : Tables + Error :=
  if existsb (fun m => (email_of m =? MemberBase.email f)%string) (members t)
  then inr (duplicate_entry (MemberBase.email f) "members.email")
  else inl (set_members (members t ++ [Member.mk id f]) t).

(** [UPDATE members SET first_name = %s, ..., membership_status = %s
    WHERE member_id = %s] *)
Definition update_members (f : MemberBase.t) (member_id : Z) (t : Tables) : Tables + Error :=
  if existsb (fun m => Member.member_id m =? member_id) (members t)
     && existsb (fun m => negb (Member.member_id m =? member_id)
                          && (email_of m =? MemberBase.email f)%string) (members t)
  then inr (duplicate_entry (MemberBase.email f) "members.email")
  else inl (set_members
              (map (fun m => if Member.member_id m =? member_id
                             then Member.mk (Member.member_id m) f else m)
                   (members t)) t).

(** [DELETE FROM members WHERE member_id = %s] *)
Definition delete_from_members (member_id : Z) (t : Tables) : Tables + Error :=
  inl (set_members (filter (fun m => negb (Member.member_id m =? member_id)) (members t)) t).

(** [INSERT INTO books (isbn, title, author, genre, available_copies,
    total_copies) VALUES (...)] *)
Definition insert_into_books (f : BookBase.t) (id : Z) (t : Tables) : Tables + Error :=
  if existsb (fun b => (isbn_of b =? BookBase.isbn f)%string) (books t)
  then inr (duplicate_entry (BookBase.isbn f) "books.isbn")
  else inl (set_books (books t ++ [Book.mk id f]) t).

(** [UPDATE books SET isbn = %s, ..., available_copies = %s,
    total_copies = %s WHERE book_id = %s] *)
Definition update_books (f : BookBase.t) (book_id : Z) (t : Tables) : Tables + Error :=
  if existsb (fun b => Book.book_id b =? book_id) (books t)
     && existsb (fun b => negb (Book.book_id b =? book_id)
                          && (isbn_of b =? BookBase.isbn f)%string) (books t)
  then inr (duplicate_entry (BookBase.isbn f) "books.isbn")
  else inl (set_books
              (map (fun b => if Book.book_id b =? book_id
                             then Book.mk (Book.book_id b) f else b)
                   (books t)) t).

(** [DELETE FROM books WHERE book_id = %s] *)
Definition delete_from_books (book_id : Z) (t : Tables) : Tables + Error :=
  inl (set_books (filter (fun b => negb (Book.book_id b =? book_id)) (books t)) t).

(** [available_copies = available_copies + delta] on one row. *)
Definition add_available (delta : Z) (b : Book.t) : Book.t :=
  Book.mk (Book.book_id b)
    (BookBase.mk (BookBase.isbn (Book.fields b)) (BookBase.title (Book.fields b))
       (BookBase.author (Book.fields b)) (BookBase.genre (Book.fields b))
       (Book.available_copies b + delta) (Book.total_copies b)).

(** [UPDATE books SET available_copies = available_copies - 1 WHERE
    book_id = %s] with [delta = -1], and the same with [+ 1]. *)
Definition update_books_available (delta : Z) (book_id : Z) (t : Tables) : Tables + Error :=
  inl (set_books
         (map (fun b => if Book.book_id b =? book_id then add_available delta b else b)
              (books t)) t).

(** [INSERT INTO loans (book_id, member_id, loan_date, due_date, status)
    VALUES (%s, %s, CURDATE(), %s, %s)] *)
Definition insert_into_loans (book_id member_id : Z) (curdate due_date : date)
  (status : string) (id : Z) (t : Tables) : Tables + Error :=
  inl (set_loans
         (loans t ++ [Loan.mk id book_id member_id (Some due_date) status curdate None]) t).

(** [status = 'Returned', return_date = CURDATE()] on one row. *)
Definition mark_returned (curdate : date) (l : Loan.t) : Loan.t :=
  Loan.mk (Loan.loan_id l) (Loan.book_id l) (Loan.member_id l) (Loan.due_date l)
    "Returned" (Loan.loan_date l) (Some curdate).

(** [UPDATE loans SET status = 'Returned', return_date = CURDATE() WHERE
    loan_id = %s] *)
Definition update_loans_returned (curdate : date) (loan_id : Z) (t : Tables) : Tables + Error :=
  inl (set_loans
         (map (fun l => if Loan.loan_id l =? loan_id then mark_returned curdate l else l)
              (loans t)) t).

(** [DELETE FROM loans WHERE loan_id = %s] *)
Definition delete_from_loans (loan_id : Z) (t : Tables) : Tables + Error :=
  inl (set_loans (filter (fun l => negb (Loan.loan_id l =? loan_id)) (loans t)) t).

Definition advance_member (a : AutoIncrement) : AutoIncrement :=
  {| next_member_id := next_member_id a + 1; next_book_id := next_book_id a;
     next_loan_id := next_loan_id a |}.

Definition advance_book (a : AutoIncrement) : AutoIncrement :=
  {| next_member_id := next_member_id a; next_book_id := next_book_id a + 1;
     next_loan_id := next_loan_id a |}.

Definition advance_loan (a : AutoIncrement) : AutoIncrement :=
  {| next_member_id := next_member_id a; next_book_id := next_book_id a;
     next_loan_id := next_loan_id a + 1 |}.

(** The [except Error as e] block of the handlers that only report. *)
Definition database_error {A} (e : Error) : M A :=
  rollback ;;
  raise (HTTPException 500 ("Database error: " ++ str e)%string).

(** The [except Error as e] block of the handlers that tell a duplicate of
    [column] apart: ["Duplicate entry" in str(e) and column in str(e)]. *)
Definition duplicate_or_database_error {A} (column detail : string) (e : Error) : M A :=
  rollback ;;
  if contains "Duplicate entry" (str e) && contains column (str e)
  then raise (HTTPException 400 detail)
  else raise (HTTPException 500 ("Database error: " ++ str e)%string).

(** ** Member routes *)

Definition create_member (member : MemberBase.t) : Handler Member.t :=
  with_connection (finally (try_except_Error
    (execute_insert next_member_id advance_member (insert_into_members member) ;;
     commit ;;
     member_id <- cursor_lastrowid ;;
     ret (Member.mk member_id member))
    (duplicate_or_database_error "email" "Email already registered"))
    close).

Definition update_member (member_id : Z) (member : MemberBase.t) : Handler (option Member.t) :=
  with_connection (finally (try_except_Error
    (found <- fetchone (select_members member_id) ;;
     match found with
     | None => raise (HTTPException 404 "Member not found")
     | Some _ =>
         execute (update_members member member_id) ;;
         commit ;;
         updated_member <- fetchone (select_members member_id) ;;
         ret updated_member
     end)
    (duplicate_or_database_error "email" "Email already registered"))
    close).

Definition delete_member (member_id : Z) : Handler unit :=
  with_connection (finally (try_except_Error
    (active <- fetchone (select_active_loans_of_member member_id) ;;
     match active with
     | Some _ => raise (HTTPException 400 "Cannot delete member with active loans")
     | None =>
         found <- fetchone (select_members member_id) ;;
         match found with
         | None => raise (HTTPException 404 "Member not found")
         | Some _ =>
             execute (delete_from_members member_id) ;;
             commit ;;
             ret tt
         end
     end)
    database_error)
    close).

(** ** Book routes *)

Definition create_book (book : BookBase.t) : Handler Book.t :=
  with_connection (finally (try_except_Error
    (execute_insert next_book_id advance_book (insert_into_books book) ;;
     commit ;;
     book_id <- cursor_lastrowid ;;
     ret (Book.mk book_id book))
    (duplicate_or_database_error "isbn" "ISBN already exists"))
    close).

Definition update_book (book_id : Z) (book : BookBase.t) : Handler (option Book.t) :=
  with_connection (finally (try_except_Error
    (found <- fetchone (select_books book_id) ;;
     match found with
     | None => raise (HTTPException 404 "Book not found")
     | Some _ =>
         execute (update_books book book_id) ;;
         commit ;;
         updated_book <- fetchone (select_books book_id) ;;
         ret updated_book
     end)
    (duplicate_or_database_error "isbn" "ISBN already exists"))
    close).

Definition delete_book (book_id : Z) : Handler unit :=
  with_connection (finally (try_except_Error
    (active <- fetchone (select_active_loans_of_book book_id) ;;
     match active with
     | Some _ => raise (HTTPException 400 "Cannot delete book with active loans")
     | None =>
         found <- fetchone (select_books book_id) ;;
         match found with
         | None => raise (HTTPException 404 "Book not found")
         | Some _ =>
             execute (delete_from_books book_id) ;;
             commit ;;
             ret tt
         end
     end)
    database_error)
    close).

(** ** Loan routes *)

Definition create_loan (loan : LoanBase.t) : Handler (option Loan.t) :=
  with_connection (finally (try_except_Error
    (book <- fetchone (select_books (LoanBase.book_id loan)) ;;
     match book with
     | None => raise (HTTPException 404 "Book not found")
     | Some book =>
         if Book.available_copies book <=? 0
         then raise (HTTPException 400 "Book not available for loan")
         else
           member <- fetchone (select_members (LoanBase.member_id loan)) ;;
           match member with
           | None => raise (HTTPException 404 "Member not found")
           | Some _ =>
               due_date <- match LoanBase.due_date loan with
                           | None => (d <- today ;; ret (d + 14))
                           | Some d => ret d
                           end ;;
               now <- curdate ;;
               execute_insert next_loan_id advance_loan
                 (insert_into_loans (LoanBase.book_id loan) (LoanBase.member_id loan)
                    now due_date (LoanBase.status loan)) ;;
               execute (update_books_available (-1) (LoanBase.book_id loan)) ;;
               commit ;;
               loan_id <- cursor_lastrowid ;;
               created_loan <- fetchone (select_loans loan_id) ;;
               ret created_loan
           end
     end)
    database_error)
    close).

Definition return_book (loan_id : Z) : Handler (option Loan.t) :=
  with_connection (finally (try_except_Error
    (loan <- fetchone (select_loans loan_id) ;;
     match loan with
     | None => raise (HTTPException 404 "Loan not found")
     | Some loan =>
         if (Loan.status loan =? "Returned")%string
         then raise (HTTPException 400 "Book already returned")
         else
           now <- curdate ;;
           execute (update_loans_returned now loan_id) ;;
           execute (update_books_available 1 (Loan.book_id loan)) ;;
           commit ;;
           updated_loan <- fetchone (select_loans loan_id) ;;
           ret updated_loan
     end)
    database_error)
    close).

Definition delete_loan (loan_id : Z) : Handler unit :=
  with_connection (finally (try_except_Error
    (loan <- fetchone (select_loans loan_id) ;;
     match loan with
     | None => raise (HTTPException 404 "Loan not found")
     | Some loan =>
         (if (Loan.status loan =? "Borrowed")%string
          then execute (update_books_available 1 (Loan.book_id loan))
          else ret tt) ;;
         execute (delete_from_loans loan_id) ;;
         commit ;;
         ret tt
     end)
    database_error)
    close).

(** ** Requests and runs *)

(** The nine routes that write.  The remaining routes only send SELECT
    statements and leave the storage as it is. *)
Inductive Request :=
| POST_members (member : MemberBase.t)
| PUT_members (member_id : Z) (member : MemberBase.t)
| DELETE_members (member_id : Z)
| POST_books (book : BookBase.t)
| PUT_books (book_id : Z) (book : BookBase.t)
| DELETE_books (book_id : Z)
| POST_loans (loan : LoanBase.t)
| PUT_loans_return (loan_id : Z)
| DELETE_loans (loan_id : Z).

(** The storage a request leaves behind, whatever it answers. *)
Definition serve (req : Request) (env : Env) (s : Storage) : Storage :=
  match req with
  | POST_members member => snd (create_member member env s)
  | PUT_members member_id member => snd (update_member member_id member env s)
  | DELETE_members member_id => snd (delete_member member_id env s)
  | POST_books book => snd (create_book book env s)
  | PUT_books book_id book => snd (update_book book_id book env s)
  | DELETE_books book_id => snd (delete_book book_id env s)
  | POST_loans loan => snd (create_loan loan env s)
  | PUT_loans_return loan_id => snd (return_book loan_id env s)
  | DELETE_loans loan_id => snd (delete_loan loan_id env s)
  end.

(** Requests served one after the other, each in its own environment. *)
Fixpoint serve_all (reqs : list (Env * Request)) (s : Storage) : Storage :=
  match reqs with
  | [] => s
  | (env, req) :: rest => serve_all rest (serve req env s)
  end.

(** ** Vocabulary of the properties *)

(** The connection opens and the server fails no statement. *)
Definition fault_free (env : Env) : Prop :=
  connect_fails env = false /\ forall n, faults env n = false.

(** [0 <= available_copies <= total_copies] on one row, and on all. *)
Definition within_bounds (b : Book.t) : Prop :=
  0 <= Book.available_copies b <= Book.total_copies b.

Definition bounds_hold (s : Storage) : Prop :=
  Forall within_bounds (books (tables s)).

(** Generated ids: no two rows of a table share one, and the table's
    counter is ahead of all of them. *)
Definition keyed {A} (id : A -> Z) (next : Z) (rows : list A) : Prop :=
  NoDup (map id rows) /\ Forall (fun i => i < next) (map id rows).

Definition primary_keys (s : Storage) : Prop :=
  keyed Member.member_id (next_member_id (auto_increment s)) (members (tables s))
  /\ keyed Book.book_id (next_book_id (auto_increment s)) (books (tables s))
  /\ keyed Loan.loan_id (next_loan_id (auto_increment s)) (loans (tables s)).

(** The number of loans of an item that are not returned. *)
Definition active_loans (book_id : Z) (t : Tables) : Z :=
  Z.of_nat (List.length (select_active_loans_of_book book_id t)).

Definition count_active (book_id : Z) (ls : list Loan.t) : Z :=
  Z.of_nat (List.length
    (filter (fun l => (Loan.book_id l =? book_id) && not_returned l) ls)).

(** The counters account for the loans: a copy is available or lent. *)
Definition accounted (b : Book.t) (t : Tables) : Prop :=
  0 <= Book.available_copies b
  /\ Book.available_copies b + active_loans (Book.book_id b) t <= Book.total_copies b.

Definition books_accounted (t : Tables) : Prop :=
  Forall (fun b => accounted b t) (books t).

(** A loan that is not returned is a loan of an item whose id has been
    generated. *)
Definition loans_known (s : Storage) : Prop :=
  Forall (fun l => not_returned l = true ->
                   Loan.book_id l < next_book_id (auto_increment s))
         (loans (tables s)).

Definition consistent (s : Storage) : Prop :=
  primary_keys s /\ books_accounted (tables s) /\ loans_known s.

(** What a request has to respect for the counters to stay accounted:
    the two routes that take the counters from the body must be given
    counters that fit. *)
Definition fits (req : Request) (s : Storage) : Prop :=
  match req with
  | POST_books book =>
      0 <= BookBase.available_copies book <= BookBase.total_copies book
  | PUT_books book_id book =>
      0 <= BookBase.available_copies book
      /\ BookBase.available_copies book + active_loans book_id (tables s)
         <= BookBase.total_copies book
  | _ => True
  end.

Fixpoint all_fit (reqs : list (Env * Request)) (s : Storage) : Prop :=
  match reqs with
  | [] => True
  | (env, req) :: rest => fits req s /\ all_fit rest (serve req env s)
  end.

(** The due date the issue route stores. *)
Definition issue_due_date (loan : LoanBase.t) (env : Env) : date :=
  match LoanBase.due_date loan with
  | None => date_today env + 14
  | Some d => d
  end.

(** The row the issue route inserts. *)
Definition issued_loan (loan : LoanBase.t) (env : Env) (s : Storage) : Loan.t :=
  Loan.mk (next_loan_id (auto_increment s)) (LoanBase.book_id loan)
    (LoanBase.member_id loan) (Some (issue_due_date loan env))
    (LoanBase.status loan) (CURDATE env) None.

(** [available_copies + delta] on the rows of one item. *)
Definition adjust (delta : Z) (book_id : Z) (bs : list Book.t) : list Book.t :=
  map (fun b => if Book.book_id b =? book_id then add_available delta b else b) bs.

(** The tables after a committed issue, return and loan deletion. *)
Definition issue_effect (loan : LoanBase.t) (env : Env) (s : Storage) : Tables :=
  {| members := members (tables s);
     books := adjust (-1) (LoanBase.book_id loan) (books (tables s));
     loans := loans (tables s) ++ [issued_loan loan env s] |}.

Definition return_effect (loan_id : Z) (loan : Loan.t) (env : Env) (s : Storage) : Tables :=
  {| members := members (tables s);
     books := adjust 1 (Loan.book_id loan) (books (tables s));
     loans := map (fun l => if Loan.loan_id l =? loan_id
                            then mark_returned (CURDATE env) l else l)
                  (loans (tables s)) |}.

Definition delete_loan_effect (loan_id : Z) (loan : Loan.t) (s : Storage) : Tables :=
  {| members := members (tables s);
     books := if (Loan.status loan =? "Borrowed")%string
              then adjust 1 (Loan.book_id loan) (books (tables s))
              else books (tables s);
     loans := filter (fun l => negb (Loan.loan_id l =? loan_id)) (loans (tables s)) |}.

(** The counters only move forward. *)
Definition counters_le (a a' : AutoIncrement) : Prop :=
  next_member_id a <= next_member_id a'
  /\ next_book_id a <= next_book_id a'
  /\ next_loan_id a <= next_loan_id a'.

(** ** A small library *)

(** An environment in which nothing fails.  [cursor.lastrowid] follows
    the insert id of the last statement, which is 0 after an UPDATE. *)
Definition quiet : Env :=
  {| date_today := 20000; CURDATE := 20000; connect_fails := false;
     faults := fun _ => false; lastrowid_after_update := fun _ => 0 |}.

(** The same, but the server fails the sixth statement of the request:
    for the issue route, the SELECT that reads the loan back after the
    commit. *)
Definition read_back_fails : Env :=
  {| date_today := 20000; CURDATE := 20000; connect_fails := false;
     faults := fun n => Nat.eqb n 5; lastrowid_after_update := fun _ => 0 |}.

Definition empty : Storage :=
  {| tables := {| members := []; books := []; loans := [] |};
     auto_increment := {| next_member_id := 1; next_book_id := 1; next_loan_id := 1 |} |}.

Definition alice : MemberBase.t :=
  MemberBase.mk "Alice" "Liddell" "a@b.com" None "Active".

Definition sicp : BookBase.t :=
  BookBase.mk "9780262510871" "Structure and Interpretation of Computer Programs"
    "Abelson" None 1 1.

(** The same item once a second copy has been bought while the first
    one is lent. *)
Definition sicp_second_copy : BookBase.t :=
  BookBase.mk "9780262510871" "Structure and Interpretation of Computer Programs"
    "Abelson" None 1 2.

Definition overbooked : BookBase.t :=
  BookBase.mk "9780262162098" "Types and Programming Languages" "Pierce" None 5 1.

(** One member, one item with one copy, no loan. *)
Definition library : Storage :=
  serve_all [(quiet, POST_members alice); (quiet, POST_books sicp)] empty.

(** The copy is lent to the member. *)
Definition lent : Storage :=
  serve (POST_loans (LoanBase.of_body 1 1 None None)) quiet library.


(** The copy is lent with a status of the client's own. *)
Definition lent_as_lost : Storage :=
  serve (POST_loans (LoanBase.of_body 1 1 None (Some "Lost"))) quiet library.

(** The copy was lent and has come back. *)
Definition returned : Storage :=
  serve (PUT_loans_return 1) quiet lent.

(** ** Running the handlers *)

Ltac unfold_handler :=
  unfold with_connection, get_db_connection, finally, try_except_Error,
    database_error, duplicate_or_database_error, bind, fetchone, execute,
    execute_insert, commit, rollback, close, cursor_lastrowid, today, curdate,
    statement, raise, ret.

(** One more branch of a handler: the next statement fails or not, the
    row is there or not, the test holds or not. *)
Ltac branch :=
  match goal with
  | |- context [faults ?env ?n] => destruct (faults env n) eqn:?
  | |- context [hd_error ?l] => destruct (hd_error l) eqn:?
  | |- context [if ?b then _ else _] => destruct b eqn:?
  | |- context [match ?d with Some _ => _ | None => _ end] => destruct d eqn:?
  end; cbn.

Lemma create_loan_cases loan env s :
  let r := create_loan loan env s in
  (exists e, fst r = Raises e /\ tables (snd r) = tables s)
  \/ (tables (snd r) = issue_effect loan env s
      /\ auto_increment (snd r) = advance_loan (auto_increment s)
      /\ (exists book, hd_error (select_books (LoanBase.book_id loan) (tables s)) = Some book
                       /\ 0 < Book.available_copies book)
      /\ ((exists created, fst r = Returns created)
          \/ (faults env 5%nat = true /\ exists e, fst r = Raises e))).
Proof.
  unfold create_loan. unfold_handler. cbn.
  destruct (connect_fails env); cbn; [left; eauto|].
  repeat branch.
  all: try (left; eexists; split; reflexivity).
  all: right; unfold issue_effect, issued_loan, issue_due_date, adjust; cbn.
  all: match goal with H : LoanBase.due_date _ = _ |- _ => rewrite H end.
  all: repeat split; eauto.
  all: eexists; split; [reflexivity | now apply Z.leb_gt].
Qed.

Lemma storage_eta (s : Storage) :
  {| tables := tables s; auto_increment := auto_increment s |} = s.
Proof. destruct s; reflexivity. Qed.

Lemma return_book_cases loan_id env s :
  let r := return_book loan_id env s in
  (exists e, fst r = Raises e /\ snd r = s)
  \/ (exists loan,
        hd_error (select_loans loan_id (tables s)) = Some loan
        /\ (Loan.status loan =? "Returned")%string = false
        /\ tables (snd r) = return_effect loan_id loan env s
        /\ auto_increment (snd r) = auto_increment s
        /\ (fst r = Returns (hd_error (select_loans loan_id (return_effect loan_id loan env s)))
            \/ (faults env 4%nat = true /\ exists e, fst r = Raises e))).
Proof.
  unfold return_book. unfold_handler. cbn.
  destruct (connect_fails env); cbn; [left; eauto|].
  repeat branch.
  all: try (left; eexists; split; [reflexivity | apply storage_eta]).
  all: right; eexists; repeat split; eauto.
  all: left; congruence.
Qed.

Lemma delete_loan_cases loan_id env s :
  let r := delete_loan loan_id env s in
  (exists e, fst r = Raises e /\ snd r = s)
  \/ (exists loan,
        hd_error (select_loans loan_id (tables s)) = Some loan
        /\ fst r = Returns tt
        /\ tables (snd r) = delete_loan_effect loan_id loan s
        /\ auto_increment (snd r) = auto_increment s).
Proof.
  unfold delete_loan. unfold_handler. cbn.
  destruct (connect_fails env); cbn; [left; eauto|].
  repeat branch.
  all: try (left; eexists; split; [reflexivity | apply storage_eta]).
  all: right; eexists; split; [reflexivity|]; unfold delete_loan_effect;
    match goal with H : String.eqb _ _ = _ |- _ => rewrite H end; repeat split.
Qed.

Lemma serve_counters req env s :
  counters_le (auto_increment s) (auto_increment (serve req env s)).
Proof.
  destruct req; unfold serve, create_member, update_member, delete_member,
    create_book, update_book, delete_book, create_loan, return_book, delete_loan,
    insert_into_members, update_members, insert_into_books, update_books.
  all: unfold_handler; cbn.
  all: destruct (connect_fails env); cbn; [unfold counters_le; lia|].
  all: repeat branch.
  all: unfold counters_le; cbn; lia.
Qed.

Lemma create_member_cases member env s :
  let s' := snd (create_member member env s) in
  tables s' = tables s
  \/ (tables s' = set_members (members (tables s)
                               ++ [Member.mk (next_member_id (auto_increment s)) member])
                              (tables s)
      /\ auto_increment s' = advance_member (auto_increment s)).
Proof.
  unfold create_member, insert_into_members. unfold_handler. cbn.
  destruct (connect_fails env); cbn; [now left|].
  repeat branch; auto.
Qed.

Lemma update_member_cases member_id member env s :
  let s' := snd (update_member member_id member env s) in
  tables s' = tables s
  \/ tables s' = set_members
                   (map (fun m => if Member.member_id m =? member_id
                                  then Member.mk (Member.member_id m) member else m)
                        (members (tables s))) (tables s).
Proof.
  unfold update_member, update_members. unfold_handler. cbn.
  destruct (connect_fails env); cbn; [now left|].
  repeat branch; auto.
Qed.

Lemma delete_member_cases member_id env s :
  let s' := snd (delete_member member_id env s) in
  tables s' = tables s
  \/ tables s' = set_members
                   (filter (fun m => negb (Member.member_id m =? member_id))
                           (members (tables s))) (tables s).
Proof.
  unfold delete_member, delete_from_members. unfold_handler. cbn.
  destruct (connect_fails env); cbn; [now left|].
  repeat branch; auto.
Qed.

Lemma create_book_cases book env s :
  let s' := snd (create_book book env s) in
  tables s' = tables s
  \/ (tables s' = set_books (books (tables s)
                             ++ [Book.mk (next_book_id (auto_increment s)) book])
                            (tables s)
      /\ auto_increment s' = advance_book (auto_increment s)).
Proof.
  unfold create_book, insert_into_books. unfold_handler. cbn.
  destruct (connect_fails env); cbn; [now left|].
  repeat branch; auto.
Qed.

Lemma update_book_cases book_id book env s :
  let s' := snd (update_book book_id book env s) in
  tables s' = tables s
  \/ tables s' = set_books
                   (map (fun b => if Book.book_id b =? book_id
                                  then Book.mk (Book.book_id b) book else b)
                        (books (tables s))) (tables s).
Proof.
  unfold update_book, update_books. unfold_handler. cbn.
  destruct (connect_fails env); cbn; [now left|].
  repeat branch; auto.
Qed.

Lemma delete_book_cases book_id env s :
  let s' := snd (delete_book book_id env s) in
  tables s' = tables s
  \/ tables s' = set_books
                   (filter (fun b => negb (Book.book_id b =? book_id))
                           (books (tables s))) (tables s).
Proof.
  unfold delete_book, delete_from_books. unfold_handler. cbn.
  destruct (connect_fails env); cbn; [now left|].
  repeat branch; auto.
Qed.

(** ** Lists of rows *)

Section Rows.
Context {A : Type} (id : A -> Z).

Lemma keyed_mono next next' rows :
  keyed id next rows -> next <= next' -> keyed id next' rows.
Proof.
  intros [Hnd Hlt] Hle. split; [assumption|].
  eapply Forall_impl; [|exact Hlt]. intros; cbn in *; lia.
Qed.

Lemma keyed_insert next rows x :
  keyed id next rows -> id x = next -> keyed id (next + 1) (rows ++ [x]).
Proof.
  intros [Hnd Hlt] Hx. unfold keyed. rewrite map_app. cbn. split.
  - apply NoDup_app; [assumption | repeat constructor; intros [] |].
    intros i Hi [Hi'|[]]. rewrite Forall_forall in Hlt.
    specialize (Hlt i Hi). lia.
  - apply Forall_app. split.
    + eapply Forall_impl; [|exact Hlt]. intros; cbn in *; lia.
    + repeat constructor. lia.
Qed.

Lemma keyed_update next rows (f : A -> A) :
  (forall r, id (f r) = id r) -> keyed id next rows -> keyed id next (map f rows).
Proof.
  intros Hf. unfold keyed. rewrite map_map.
  now rewrite (map_ext _ id Hf).
Qed.

Lemma ids_filter (p : A -> bool) rows i :
  In i (map id (filter p rows)) -> In i (map id rows).
Proof.
  rewrite !in_map_iff. intros [r [Hr Hin]].
  apply filter_In in Hin. exists r. tauto.
Qed.

Lemma keyed_delete next rows (p : A -> bool) :
  keyed id next rows -> keyed id next (filter p rows).
Proof.
  intros [Hnd Hlt]. split.
  - induction rows as [|r rows IH]; cbn in *; [constructor|].
    inversion Hnd as [|? ? Hnotin Hnd']; subst.
    inversion Hlt as [|? ? _ Hlt']; subst.
    destruct (p r); cbn; auto.
    constructor; auto. intros Hin. apply Hnotin. eapply ids_filter; eauto.
  - rewrite Forall_forall in *. intros i Hi. apply Hlt. eapply ids_filter; eauto.
Qed.

Lemma fetched_first rows (p : A -> bool) r :
  hd_error (filter p rows) = Some r -> In r rows /\ p r = true.
Proof.
  intros H. apply filter_In.
  destruct (filter p rows) as [|r' rest]; [discriminate|].
  cbn in H. injection H as ->. now left.
Qed.

Lemma fetched_only rows x r0 r :
  NoDup (map id rows) ->
  hd_error (filter (fun r => id r =? x) rows) = Some r0 ->
  In r rows -> id r = x -> r = r0.
Proof.
  intros Hnd H0 Hin Hr. apply fetched_first in H0 as [Hin0 H0].
  apply Z.eqb_eq in H0.
  induction rows as [|a rows IH]; [destruct Hin|].
  cbn in Hnd. inversion Hnd as [|? ? Hnotin Hnd']; subst.
  destruct Hin as [->|Hin], Hin0 as [->|Hin0]; auto.
  - exfalso. apply Hnotin. rewrite in_map_iff. exists r0. split; [congruence | assumption].
  - exfalso. apply Hnotin. rewrite in_map_iff. exists r. split; [congruence | assumption].
Qed.

Lemma fetched_none rows x :
  (forall r, In r rows -> id r <> x) ->
  filter (fun r => id r =? x) rows = [].
Proof.
  intros H. induction rows as [|a rows IH]; [reflexivity|]. cbn.
  destruct (Z.eqb_spec (id a) x) as [E|_].
  - exfalso. apply (H a); [now left | exact E].
  - apply IH. intros r Hr. apply H. now right.
Qed.

Lemma fetched_updated rows x (f : A -> A) r :
  (forall r, id (f r) = id r) ->
  hd_error (filter (fun r => id r =? x) rows) = Some r ->
  hd_error (filter (fun r => id r =? x)
              (map (fun r => if id r =? x then f r else r) rows)) = Some (f r).
Proof.
  intros Hf. induction rows as [|a rows IH]; cbn; [discriminate|].
  destruct (id a =? x) eqn:E; cbn.
  - rewrite Hf, E. cbn. congruence.
  - rewrite E. exact IH.
Qed.

End Rows.

(** ** Counting the loans that are not returned *)

Lemma active_loans_count book_id t :
  active_loans book_id t = count_active book_id (loans t).
Proof. reflexivity. Qed.

Lemma count_active_nonneg book_id ls : 0 <= count_active book_id ls.
Proof. unfold count_active. lia. Qed.

Lemma count_active_cons book_id l ls :
  count_active book_id (l :: ls)
  = (if (Loan.book_id l =? book_id) && not_returned l then 1 else 0)
    + count_active book_id ls.
Proof.
  unfold count_active. cbn.
  destruct ((Loan.book_id l =? book_id) && not_returned l); cbn [List.length]; lia.
Qed.

Lemma count_active_issued book_id l ls :
  count_active book_id (ls ++ [l])
  = count_active book_id ls
    + (if (Loan.book_id l =? book_id) && not_returned l then 1 else 0).
Proof.
  induction ls as [|a ls IH]; cbn [app].
  - rewrite count_active_cons. unfold count_active. cbn. lia.
  - rewrite !count_active_cons, IH. lia.
Qed.

Lemma not_returned_mark_returned now l : not_returned (mark_returned now l) = false.
Proof. reflexivity. Qed.

Lemma count_active_returned book_id loan_id now ls :
  let ls' := map (fun l => if Loan.loan_id l =? loan_id then mark_returned now l else l) ls in
  count_active book_id ls' <= count_active book_id ls
  /\ (forall l, In l ls -> Loan.loan_id l = loan_id -> Loan.book_id l = book_id ->
                not_returned l = true ->
                count_active book_id ls' + 1 <= count_active book_id ls).
Proof.
  induction ls as [|a ls [IH1 IH2]]; cbn [map].
  - split; [lia | intros l []].
  - rewrite !count_active_cons.
    destruct (Z.eqb_spec (Loan.loan_id a) loan_id) as [Ea|Ea].
    + rewrite not_returned_mark_returned, andb_false_r.
      pose proof (count_active_nonneg book_id ls).
      split.
      * destruct (_ && _); lia.
      * intros l [->|Hl] Hid Hb Hact.
        -- rewrite Hact, andb_true_r. apply Z.eqb_eq in Hb. rewrite Hb. lia.
        -- specialize (IH2 l Hl Hid Hb Hact). destruct (_ && _); lia.
    + split; [lia|].
      intros l [->|Hl] Hid Hb Hact; [contradiction|].
      specialize (IH2 l Hl Hid Hb Hact). lia.
Qed.

Lemma count_active_deleted book_id loan_id ls :
  let ls' := filter (fun l => negb (Loan.loan_id l =? loan_id)) ls in
  count_active book_id ls' <= count_active book_id ls
  /\ (forall l, In l ls -> Loan.loan_id l = loan_id -> Loan.book_id l = book_id ->
                not_returned l = true ->
                count_active book_id ls' + 1 <= count_active book_id ls).
Proof.
  induction ls as [|a ls [IH1 IH2]]; cbn [filter].
  - split; [lia | intros l []].
  - destruct (Z.eqb_spec (Loan.loan_id a) loan_id) as [Ea|Ea]; cbn [negb].
    + rewrite !count_active_cons. split.
      * destruct (_ && _); lia.
      * intros l [->|Hl] Hid Hb Hact.
        -- rewrite Hact, andb_true_r. apply Z.eqb_eq in Hb. rewrite Hb. lia.
        -- specialize (IH2 l Hl Hid Hb Hact). destruct (_ && _); lia.
    + rewrite !count_active_cons. split; [lia|].
      intros l [->|Hl] Hid Hb Hact; [contradiction|].
      specialize (IH2 l Hl Hid Hb Hact). lia.
Qed.

Lemma count_active_unknown book_id ls :
  Forall (fun l => not_returned l = true -> Loan.book_id l < book_id) ls ->
  count_active book_id ls = 0.
Proof.
  induction 1 as [|a ls Ha _ IH]; [reflexivity|].
  rewrite count_active_cons, IH.
  destruct (Z.eqb_spec (Loan.book_id a) book_id) as [E|E]; cbn; [|lia].
  destruct (not_returned a); [|lia]. specialize (Ha eq_refl). lia.
Qed.

(** ** Generated ids stay unique *)

Lemma adjust_ids delta book_id bs :
  map Book.book_id (adjust delta book_id bs) = map Book.book_id bs.
Proof.
  unfold adjust. rewrite map_map. apply map_ext.
  intros b. now destruct (Book.book_id b =? book_id).
Qed.

Lemma keyed_adjust next delta book_id bs :
  keyed Book.book_id next bs -> keyed Book.book_id next (adjust delta book_id bs).
Proof. unfold keyed. now rewrite adjust_ids. Qed.

Ltac unchanged E :=
  unfold primary_keys; rewrite E; split; [|split]; eapply keyed_mono; eauto.

Lemma serve_primary_keys req env s :
  primary_keys s -> primary_keys (serve req env s).
Proof.
  intros (Hm & Hb & Hl).
  destruct (serve_counters req env s) as (Cm & Cb & Cl).
  destruct req; cbn [serve] in *.
  - destruct (create_member_cases member env s) as [E|[E Ea]]; [unchanged E|].
    unfold primary_keys. rewrite E, Ea. cbn. split; [|split]; auto.
    now apply keyed_insert.
  - destruct (update_member_cases member_id member env s) as [E|E]; [unchanged E|].
    unfold primary_keys. rewrite E. cbn. split; [|split].
    2-3: eapply keyed_mono; eauto.
    eapply keyed_mono; [|exact Cm]. apply keyed_update; auto.
    intros r; now destruct (Member.member_id r =? member_id).
  - destruct (delete_member_cases member_id env s) as [E|E]; [unchanged E|].
    unfold primary_keys. rewrite E. cbn. split; [|split].
    2-3: eapply keyed_mono; eauto.
    eapply keyed_mono; [|exact Cm]. now apply keyed_delete.
  - destruct (create_book_cases book env s) as [E|[E Ea]]; [unchanged E|].
    unfold primary_keys. rewrite E, Ea. cbn. split; [|split]; auto.
    now apply keyed_insert.
  - destruct (update_book_cases book_id book env s) as [E|E]; [unchanged E|].
    unfold primary_keys. rewrite E. cbn. split; [|split].
    1, 3: eapply keyed_mono; eauto.
    eapply keyed_mono; [|exact Cb]. apply keyed_update; auto.
    intros r; now destruct (Book.book_id r =? book_id).
  - destruct (delete_book_cases book_id env s) as [E|E]; [unchanged E|].
    unfold primary_keys. rewrite E. cbn. split; [|split].
    1, 3: eapply keyed_mono; eauto.
    eapply keyed_mono; [|exact Cb]. now apply keyed_delete.
  - destruct (create_loan_cases loan env s) as [(e & _ & E)|(E & Ea & _)]; [unchanged E|].
    unfold primary_keys. rewrite E, Ea. cbn. split; [|split]; auto.
    + now apply keyed_adjust.
    + now apply keyed_insert.
  - destruct (return_book_cases loan_id env s) as [(e & _ & E)|(loan & _ & _ & E & Ea & _)].
    + rewrite E. split; [|split]; assumption.
    + unfold primary_keys. rewrite E, Ea. cbn. split; [|split]; auto.
      * now apply keyed_adjust.
      * apply keyed_update; auto.
        intros r; now destruct (Loan.loan_id r =? loan_id).
  - destruct (delete_loan_cases loan_id env s) as [(e & _ & E)|(loan & _ & _ & E & Ea)].
    + rewrite E. split; [|split]; assumption.
    + unfold primary_keys. rewrite E, Ea. cbn. split; [|split]; auto.
      * destruct (Loan.status loan =? "Borrowed")%string;
          [now apply keyed_adjust | apply Hb].
      * now apply keyed_delete.
Qed.

(** ** The counters stay accounted *)

Lemma accounted_bounds b t : accounted b t -> within_bounds b.
Proof.
  unfold accounted, within_bounds. rewrite active_loans_count.
  pose proof (count_active_nonneg (Book.book_id b) (loans t)). lia.
Qed.

Lemma consistent_bounds s : consistent s -> bounds_hold s.
Proof.
  intros (_ & Hacc & _). unfold bounds_hold.
  eapply Forall_impl; [|exact Hacc]. intros b. apply accounted_bounds.
Qed.

Lemma loans_known_mono s s' :
  loans (tables s') = loans (tables s) ->
  next_book_id (auto_increment s) <= next_book_id (auto_increment s') ->
  loans_known s -> loans_known s'.
Proof.
  unfold loans_known. intros -> Hle H.
  eapply Forall_impl; [|exact H]. cbn. intros l Hl Hact. specialize (Hl Hact). lia.
Qed.

Lemma active_status_false l :
  (Loan.status l =? "Returned")%string = false -> not_returned l = true.
Proof. unfold not_returned. now intros ->. Qed.

Lemma active_borrowed l :
  (Loan.status l =? "Borrowed")%string = true -> not_returned l = true.
Proof.
  unfold not_returned. intros H. apply String.eqb_eq in H. now rewrite H.
Qed.

Lemma issue_accounted loan env s book :
  primary_keys s -> books_accounted (tables s) ->
  hd_error (select_books (LoanBase.book_id loan) (tables s)) = Some book ->
  0 < Book.available_copies book ->
  books_accounted (issue_effect loan env s).
Proof.
  intros (_ & [Hnd _] & _) Hacc Hbook Hpos.
  unfold books_accounted, issue_effect in *. cbn [books]. unfold adjust.
  rewrite Forall_map. rewrite Forall_forall in *. intros b Hb.
  specialize (Hacc b Hb). unfold accounted in *.
  rewrite active_loans_count in Hacc. rewrite active_loans_count. cbn [loans].
  destruct (Z.eqb_spec (Book.book_id b) (LoanBase.book_id loan)) as [E|E].
  - assert (b = book) as ->.
    { eapply (fetched_only Book.book_id); eauto. }
    cbn. rewrite count_active_issued. cbn [Loan.book_id issued_loan].
    unfold Book.available_copies, Book.total_copies in *.
    destruct (_ && _); lia.
  - rewrite count_active_issued. cbn [Loan.book_id issued_loan].
    destruct (Z.eqb_spec (LoanBase.book_id loan) (Book.book_id b)) as [E'|_];
      [congruence|]. cbn. lia.
Qed.

Lemma return_accounted loan_id loan env s :
  books_accounted (tables s) ->
  hd_error (select_loans loan_id (tables s)) = Some loan ->
  (Loan.status loan =? "Returned")%string = false ->
  books_accounted (return_effect loan_id loan env s).
Proof.
  intros Hacc Hloan Hst.
  apply fetched_first in Hloan as [Hin Hid].
  apply Z.eqb_eq in Hid. apply active_status_false in Hst.
  unfold books_accounted, return_effect in *. cbn [books]. unfold adjust.
  rewrite Forall_map. eapply Forall_impl; [|exact Hacc]. cbn beta.
  intros b Hb. unfold accounted in *.
  rewrite active_loans_count in Hb. rewrite active_loans_count. cbn [loans].
  destruct (count_active_returned (Book.book_id b) loan_id (CURDATE env) (loans (tables s)))
    as [Hle Hlt].
  destruct (Z.eqb_spec (Book.book_id b) (Loan.book_id loan)) as [E|E].
  - specialize (Hlt loan Hin Hid (eq_sym E) Hst). cbn.
    unfold Book.available_copies, Book.total_copies in *. lia.
  - lia.
Qed.

Lemma delete_loan_accounted loan_id loan s :
  books_accounted (tables s) ->
  hd_error (select_loans loan_id (tables s)) = Some loan ->
  books_accounted (delete_loan_effect loan_id loan s).
Proof.
  intros Hacc Hloan.
  apply fetched_first in Hloan as [Hin Hid].
  apply Z.eqb_eq in Hid.
  unfold books_accounted, delete_loan_effect in *. cbn [books].
  destruct (Loan.status loan =? "Borrowed")%string eqn:Hst.
  - apply active_borrowed in Hst. unfold adjust.
    rewrite Forall_map. eapply Forall_impl; [|exact Hacc]. cbn beta.
    intros b Hb. unfold accounted in *.
    rewrite active_loans_count in Hb. rewrite active_loans_count. cbn [loans].
    destruct (count_active_deleted (Book.book_id b) loan_id (loans (tables s)))
      as [Hle Hlt].
    destruct (Z.eqb_spec (Book.book_id b) (Loan.book_id loan)) as [E|E].
    + specialize (Hlt loan Hin Hid (eq_sym E) Hst). cbn.
      unfold Book.available_copies, Book.total_copies in *. lia.
    + lia.
  - eapply Forall_impl; [|exact Hacc]. cbn beta.
    intros b Hb. unfold accounted in *.
    rewrite active_loans_count in Hb. rewrite active_loans_count. cbn [loans].
    destruct (count_active_deleted (Book.book_id b) loan_id (loans (tables s)))
      as [Hle _]. lia.
Qed.

Lemma serve_consistent req env s :
  consistent s -> fits req s -> consistent (serve req env s).
Proof.
  intros (Hk & Hacc & Hkn) Hfit.
  split; [now apply serve_primary_keys|].
  destruct (serve_counters req env s) as (_ & Cb & _).
  assert (Hsame : tables (serve req env s) = tables s ->
                  books_accounted (tables (serve req env s)) /\ loans_known (serve req env s)).
  { intros E. split; [now rewrite E|].
    apply (loans_known_mono s); [now rewrite E | exact Cb | exact Hkn]. }
  destruct req; cbn [serve] in *.
  - destruct (create_member_cases member env s) as [E|[E Ea]]; [auto|].
    split; [rewrite E; exact Hacc|].
    apply (loans_known_mono s); [now rewrite E | exact Cb | exact Hkn].
  - destruct (update_member_cases member_id member env s) as [E|E]; [auto|].
    split; [rewrite E; exact Hacc|].
    apply (loans_known_mono s); [now rewrite E | exact Cb | exact Hkn].
  - destruct (delete_member_cases member_id env s) as [E|E]; [auto|].
    split; [rewrite E; exact Hacc|].
    apply (loans_known_mono s); [now rewrite E | exact Cb | exact Hkn].
  - destruct (create_book_cases book env s) as [E|[E Ea]]; [auto|].
    split; [|apply (loans_known_mono s); [now rewrite E | exact Cb | exact Hkn]].
    rewrite E. unfold books_accounted. cbn [books set_books].
    apply Forall_app. split; [exact Hacc|].
    repeat constructor; cbn; [apply Hfit|].
    rewrite active_loans_count. cbn [loans set_books Book.book_id].
    rewrite (count_active_unknown _ _ Hkn).
    unfold Book.available_copies, Book.total_copies. cbn in *. lia.
  - destruct (update_book_cases book_id book env s) as [E|E]; [auto|].
    split; [|apply (loans_known_mono s); [now rewrite E | exact Cb | exact Hkn]].
    rewrite E. unfold books_accounted. cbn [books set_books].
    rewrite Forall_map. eapply Forall_impl; [|exact Hacc]. cbn beta.
    intros b Hb. destruct (Z.eqb_spec (Book.book_id b) book_id) as [Eb|_]; [|exact Hb].
    unfold accounted. cbn. rewrite Eb. exact Hfit.
  - destruct (delete_book_cases book_id env s) as [E|E]; [auto|].
    split; [|apply (loans_known_mono s); [now rewrite E | exact Cb | exact Hkn]].
    rewrite E. unfold books_accounted in *. cbn [books set_books].
    rewrite Forall_forall in *. intros b Hb. apply filter_In in Hb as [Hb _].
    exact (Hacc b Hb).
  - destruct (create_loan_cases loan env s)
      as [(e & _ & E)|(E & Ea & (book & Hbook & Hpos) & _)]; [auto|].
    split; [rewrite E; eapply issue_accounted; eauto|].
    unfold loans_known. rewrite E, Ea. cbn.
    apply Forall_app. split; [exact Hkn|].
    repeat constructor. cbn. intros _.
    apply fetched_first in Hbook as [Hin Hid]. apply Z.eqb_eq in Hid.
    destruct Hk as (_ & [_ Hlt] & _). rewrite Forall_forall in Hlt.
    rewrite <- Hid. apply Hlt. now apply in_map.
  - destruct (return_book_cases loan_id env s)
      as [(e & _ & E)|(loan & Hloan & Hst & E & Ea & _)].
    + rewrite E. auto.
    + split; [rewrite E; now apply return_accounted|].
      unfold loans_known. rewrite E, Ea. cbn.
      rewrite Forall_map. eapply Forall_impl; [|exact Hkn]. cbn beta.
      intros l Hl. destruct (Loan.loan_id l =? loan_id); [|exact Hl].
      rewrite not_returned_mark_returned. discriminate.
  - destruct (delete_loan_cases loan_id env s)
      as [(e & _ & E)|(loan & Hloan & _ & E & Ea)].
    + rewrite E. auto.
    + split; [rewrite E; now apply delete_loan_accounted|].
      unfold loans_known in *. rewrite E, Ea. cbn.
      rewrite Forall_forall in *. intros l Hl. apply filter_In in Hl as [Hl _].
      exact (Hkn l Hl).
Qed.

Lemma serve_all_consistent reqs s :
  consistent s -> all_fit reqs s -> consistent (serve_all reqs s).
Proof.
  revert s. induction reqs as [|[env req] reqs IH]; intros s Hs Hfit; [exact Hs|].
  destruct Hfit as [Hfit Hrest]. cbn [serve_all].
  apply IH; [now apply serve_consistent | exact Hrest].
Qed.

Lemma serve_all_primary_keys reqs s :
  primary_keys s -> primary_keys (serve_all reqs s).
Proof.
  revert s. induction reqs as [|[env req] reqs IH]; intros s Hs; [exact Hs|].
  cbn [serve_all]. apply IH. now apply serve_primary_keys.
Qed.

Lemma empty_consistent : consistent empty.
Proof.
  split; [|split]; [|constructor|constructor].
  unfold primary_keys, keyed. cbn. repeat split; constructor.
Qed.

(** ** The handlers when the storage does not fail *)

Ltac run_fault_free Hff :=
  let Hc := fresh "Hc" in
  let Hf := fresh "Hf" in
  destruct Hff as [Hc Hf]; unfold_handler; rewrite Hc; cbn; rewrite ?Hf; cbn.

Lemma create_loan_runs loan env s :
  fault_free env ->
  create_loan loan env s =
  match hd_error (select_books (LoanBase.book_id loan) (tables s)) with
  | None => (Raises (HTTPException 404 "Book not found"), s)
  | Some book =>
      if Book.available_copies book <=? 0
      then (Raises (HTTPException 400 "Book not available for loan"), s)
      else
        match hd_error (select_members (LoanBase.member_id loan) (tables s)) with
        | None => (Raises (HTTPException 404 "Member not found"), s)
        | Some _ =>
            (Returns (hd_error (select_loans
                                  (lastrowid_after_update env (next_loan_id (auto_increment s)))
                                  (issue_effect loan env s))),
             {| tables := issue_effect loan env s;
                auto_increment := advance_loan (auto_increment s) |})
        end
  end.
Proof.
  intros Hff. unfold create_loan. run_fault_free Hff.
  destruct (hd_error (select_books _ _)) as [book|]; cbn; [|now rewrite storage_eta].
  destruct (Book.available_copies book <=? 0); cbn; [now rewrite storage_eta|].
  rewrite ?Hf. cbn.
  destruct (hd_error (select_members _ _)); cbn; [|now rewrite storage_eta].
  unfold issue_effect, issued_loan, issue_due_date.
  destruct (LoanBase.due_date loan); cbn; rewrite ?Hf; cbn; rewrite ?Hf; reflexivity.
Qed.

Lemma return_book_runs loan_id env s :
  fault_free env ->
  return_book loan_id env s =
  match hd_error (select_loans loan_id (tables s)) with
  | None => (Raises (HTTPException 404 "Loan not found"), s)
  | Some loan =>
      if (Loan.status loan =? "Returned")%string
      then (Raises (HTTPException 400 "Book already returned"), s)
      else (Returns (Some (mark_returned (CURDATE env) loan)),
            {| tables := return_effect loan_id loan env s;
               auto_increment := auto_increment s |})
  end.
Proof.
  intros Hff. unfold return_book. run_fault_free Hff.
  destruct (hd_error (select_loans _ _)) as [loan|] eqn:Hloan; cbn;
    [|now rewrite storage_eta].
  destruct (Loan.status loan =? "Returned")%string; cbn; [now rewrite storage_eta|].
  rewrite ?Hf. cbn. rewrite ?Hf. cbn.
  unfold select_loans in *. cbn.
  rewrite (fetched_updated Loan.loan_id _ _ (mark_returned (CURDATE env)) loan);
    auto.
Qed.

Lemma delete_loan_runs loan_id env s :
  fault_free env ->
  delete_loan loan_id env s =
  match hd_error (select_loans loan_id (tables s)) with
  | None => (Raises (HTTPException 404 "Loan not found"), s)
  | Some loan =>
      (Returns tt, {| tables := delete_loan_effect loan_id loan s;
                      auto_increment := auto_increment s |})
  end.
Proof.
  intros Hff. unfold delete_loan. run_fault_free Hff.
  destruct (hd_error (select_loans _ _)) as [loan|]; cbn; [|now rewrite storage_eta].
  unfold delete_loan_effect.
  destruct (Loan.status loan =? "Borrowed")%string; cbn; rewrite ?Hf; cbn;
    rewrite ?Hf; reflexivity.
Qed.



Lemma adjust_back book_id bs : adjust 1 book_id (adjust (-1) book_id bs) = bs.
Proof.
  unfold adjust. rewrite map_map. rewrite <- (map_id bs) at 2.
  apply map_ext. intros [id [i t a g av tot]].
  cbn. destruct (id =? book_id) eqn:E; cbn; rewrite E; [|reflexivity].
  unfold add_available, Book.available_copies, Book.total_copies. cbn.
  do 2 f_equal. lia.
Qed.



(** ** Issuing a loan *)

(** A request body without a status is a request for a "Borrowed" loan. *)
Lemma status_defaults_to_Borrowed book_id member_id due_date :
  LoanBase.status (LoanBase.of_body book_id member_id due_date None) = "Borrowed".
Proof. reflexivity. Qed.

(** What the issue route returns when nothing fails: the row the cursor
    finds under [cursor.lastrowid], read after the UPDATE of the item. *)
Lemma create_loan_returns loan env s created s' :
  fault_free env ->
  create_loan loan env s = (Returns created, s') ->
  created = hd_error (select_loans
                        (lastrowid_after_update env (next_loan_id (auto_increment s)))
                        (issue_effect loan env s)).
Proof.
  intros Hff. rewrite (create_loan_runs loan env s Hff).
  destruct (hd_error (select_books _ _)) as [book|]; [|discriminate].
  destruct (Book.available_copies book <=? 0); [discriminate|].
  destruct (hd_error (select_members _ _)); [|discriminate].
  now intros [= <- _].
Qed.

(** C1, as stated, does not hold: a client that sends the status
    "Returned" with its issue request gets a loan row whose status is
    "Returned", not "Borrowed". *)
Lemma issue_status_counterexample :
  (exists created,
     fst (create_loan (LoanBase.of_body 1 1 None (Some "Returned")) quiet library)
     = Returns created)
  /\ loans (tables library) = []
  /\ map Loan.status
       (loans (tables (snd (create_loan (LoanBase.of_body 1 1 None (Some "Returned"))
                              quiet library))))
     = ["Returned"].
Proof. vm_compute. repeat split. now exists None. Qed.

(** C1, amended: every successful issue inserts exactly one loan row, at
    the end of the table, with a newly generated id, the item and the
    member of the request, [loan_date] equal to today ([CURDATE()]), the
    due date of the request or today plus 14 days, no return date, and
    the status of the request. *)
Theorem issue_inserts_loan loan env s created s' :
  create_loan loan env s = (Returns created, s') ->
  loans (tables s')
  = loans (tables s)
    ++ [Loan.mk (next_loan_id (auto_increment s)) (LoanBase.book_id loan)
          (LoanBase.member_id loan) (Some (issue_due_date loan env))
          (LoanBase.status loan) (CURDATE env) None]
  /\ next_loan_id (auto_increment s') = next_loan_id (auto_increment s) + 1.
Proof.
  intros H.
  destruct (create_loan_cases loan env s) as [(e & He & _)|(E & Ea & _)];
    rewrite H in *; cbn [fst snd] in *; [discriminate|].
  rewrite E, Ea. split; reflexivity.
Qed.

Lemma issue_inserts_loan_witness :
  loans (tables lent)
  = loans (tables library) ++ [Loan.mk 1 1 1 (Some 20014) "Borrowed" 20000 None]
  /\ next_loan_id (auto_increment lent) = next_loan_id (auto_increment library) + 1.
Proof.
  apply (issue_inserts_loan (LoanBase.of_body 1 1 None None) quiet library None lent).
  vm_compute. reflexivity.
Defined.

(** C5: an issue request for an item that exists with
    [available_copies <= 0] creates no loan and changes nothing, and,
    with the storage answering, it is refused with 400 "Book not
    available for loan"; for an item that does not exist it changes
    nothing either and is refused with 404 "Book not found". *)
Theorem issue_refused_when_unavailable loan env s :
  match hd_error (select_books (LoanBase.book_id loan) (tables s)) with
  | None =>
      snd (create_loan loan env s) = s
      /\ (fault_free env ->
          create_loan loan env s = (Raises (HTTPException 404 "Book not found"), s))
  | Some book =>
      Book.available_copies book <= 0 ->
      snd (create_loan loan env s) = s
      /\ (fault_free env ->
          create_loan loan env s
          = (Raises (HTTPException 400 "Book not available for loan"), s))
  end.
Proof.
  destruct (hd_error (select_books _ _)) as [book|] eqn:Hbook.
  - intros Hle. apply Z.leb_le in Hle. split.
    + unfold create_loan. unfold_handler.
      destruct (connect_fails env); cbn; [reflexivity|].
      destruct (faults env 0%nat); cbn; [apply storage_eta|].
      rewrite Hbook. cbn. rewrite Hle. cbn. apply storage_eta.
    + intros Hff. now rewrite (create_loan_runs loan env s Hff), Hbook, Hle.
  - split.
    + unfold create_loan. unfold_handler.
      destruct (connect_fails env); cbn; [reflexivity|].
      destruct (faults env 0%nat); cbn; [apply storage_eta|].
      rewrite Hbook. cbn. apply storage_eta.
    + intros Hff. now rewrite (create_loan_runs loan env s Hff), Hbook.
Qed.

Lemma issue_refused_when_unavailable_witness :
  fault_free quiet
  /\ map Book.available_copies (books (tables lent)) = [0]
  /\ create_loan (LoanBase.of_body 1 1 None None) quiet lent
     = (Raises (HTTPException 400 "Book not available for loan"), lent)
  /\ snd (create_loan (LoanBase.of_body 1 1 None None) read_back_fails lent) = lent
  /\ create_loan (LoanBase.of_body 7 1 None None) quiet lent
     = (Raises (HTTPException 404 "Book not found"), lent).
Proof.
  assert (Hq : fault_free quiet) by (split; [reflexivity | intros n; reflexivity]).
  split; [exact Hq|]. split; [reflexivity|]. split; [|split].
  - apply (issue_refused_when_unavailable (LoanBase.of_body 1 1 None None) quiet lent);
      [vm_compute; discriminate | exact Hq].
  - apply (issue_refused_when_unavailable (LoanBase.of_body 1 1 None None)
             read_back_fails lent).
    vm_compute. discriminate.
  - apply (issue_refused_when_unavailable (LoanBase.of_body 7 1 None None) quiet lent).
    exact Hq.
Defined.

(** ** Returning a loan *)

(** C6: with the storage answering, [return_book] answers 404 "Loan not
    found" when no loan has the id and 400 "Book already returned" when
    the loan's status is "Returned", both without changing anything;
    otherwise it sets the loan's status to "Returned" and its return date
    to today, adds exactly 1 to [available_copies] of the loan's item,
    leaves every other column and row as it was, and returns the updated
    loan. *)
Theorem return_book_contract loan_id env s :
  fault_free env ->
  match hd_error (select_loans loan_id (tables s)) with
  | None =>
      return_book loan_id env s = (Raises (HTTPException 404 "Loan not found"), s)
  | Some loan =>
      (Loan.status loan = "Returned" ->
       return_book loan_id env s
       = (Raises (HTTPException 400 "Book already returned"), s))
      /\ (Loan.status loan <> "Returned" ->
          exists updated s',
            return_book loan_id env s = (Returns (Some updated), s')
            /\ updated = Loan.mk (Loan.loan_id loan) (Loan.book_id loan)
                           (Loan.member_id loan) (Loan.due_date loan) "Returned"
                           (Loan.loan_date loan) (Some (CURDATE env))
            /\ loans (tables s')
               = map (fun l => if Loan.loan_id l =? loan_id
                               then mark_returned (CURDATE env) l else l)
                     (loans (tables s))
            /\ books (tables s')
               = map (fun b => if Book.book_id b =? Loan.book_id loan
                               then add_available 1 b else b)
                     (books (tables s))
            /\ (forall b, Book.available_copies (add_available 1 b)
                          = Book.available_copies b + 1
                          /\ Book.total_copies (add_available 1 b) = Book.total_copies b)
            /\ members (tables s') = members (tables s)
            /\ auto_increment s' = auto_increment s)
  end.
Proof.
  intros Hff. rewrite (return_book_runs loan_id env s Hff).
  destruct (hd_error (select_loans _ _)) as [loan|]; [|reflexivity]. split.
  - intros ->. reflexivity.
  - intros Hst. apply String.eqb_neq in Hst. rewrite Hst.
    eexists. eexists. split; [reflexivity|]. repeat split.
Qed.

Lemma return_book_contract_witness :
  fault_free quiet
  /\ (exists updated s',
        return_book 1 quiet lent = (Returns (Some updated), s')
        /\ updated = Loan.mk 1 1 1 (Some 20014) "Returned" 20000 (Some 20000)
        /\ map Book.available_copies (books (tables lent)) = [0]
        /\ map Book.available_copies (books (tables s')) = [1])
  /\ return_book 1 quiet returned
     = (Raises (HTTPException 400 "Book already returned"), returned)
  /\ return_book 9 quiet lent = (Raises (HTTPException 404 "Loan not found"), lent).
Proof.
  assert (Hq : fault_free quiet) by (split; [reflexivity | intros n; reflexivity]).
  split; [exact Hq|]. split; [|split].
  - destruct (return_book_contract 1 quiet lent Hq) as [_ H].
    destruct H as (updated & s' & Hrun & Hup & _ & Hbooks & _).
    + vm_compute. discriminate.
    + exists updated, s'. repeat split; try assumption.
      rewrite Hbooks. reflexivity.
  - apply (return_book_contract 1 quiet returned Hq). reflexivity.
  - apply (return_book_contract 9 quiet lent Hq).
Defined.

(** ** Deleting a loan *)



(** C10: with the storage answering, deleting an existing loan whose
    status is neither "Borrowed" nor "Returned" deletes the row and
    leaves the items as they are; whatever the status, the items change
    only if it is exactly "Borrowed". *)
Theorem delete_loan_other_status loan_id env s loan :
  fault_free env ->
  hd_error (select_loans loan_id (tables s)) = Some loan ->
  (Loan.status loan <> "Borrowed" -> Loan.status loan <> "Returned" ->
   exists s',
     delete_loan loan_id env s = (Returns tt, s')
     /\ loans (tables s')
        = filter (fun l => negb (Loan.loan_id l =? loan_id)) (loans (tables s))
     /\ books (tables s') = books (tables s))
  /\ (books (tables (snd (delete_loan loan_id env s))) <> books (tables s) ->
      Loan.status loan = "Borrowed").
Proof.
  intros Hff Hloan. rewrite (delete_loan_runs loan_id env s Hff), Hloan. split.
  - intros Hb _. apply String.eqb_neq in Hb.
    eexists. split; [reflexivity|]. cbn. rewrite Hb. split; reflexivity.
  - cbn. destruct (String.eqb_spec (Loan.status loan) "Borrowed") as [E|_]; [auto|].
    intros H. now contradiction H.
Qed.

Lemma delete_loan_other_status_witness :
  fault_free quiet
  /\ map Loan.status (loans (tables lent_as_lost)) = ["Lost"]
  /\ exists s', delete_loan 1 quiet lent_as_lost = (Returns tt, s')
                /\ loans (tables s') = []
                /\ books (tables s') = books (tables lent_as_lost)
                /\ map Book.available_copies (books (tables s')) = [0].
Proof.
  assert (Hq : fault_free quiet) by (split; [reflexivity | intros n; reflexivity]).
  split; [exact Hq|]. split; [reflexivity|].
  destruct (delete_loan_other_status 1 quiet lent_as_lost
              (Loan.mk 1 1 1 (Some 20014) "Lost" 20000 None) Hq eq_refl) as [H _].
  destruct H as (s' & Hrun & Hloans & Hbooks).
  - vm_compute. discriminate.
  - vm_compute. discriminate.
  - exists s'. repeat split; try assumption. rewrite Hbooks. reflexivity.
Defined.

(** ** Issue, then return *)

(** C8: in a storage whose generated ids are fresh, a successful issue
    followed at once by a successful return of the loan it created
    leaves the items, and so every [available_copies], as they were
    before the issue. *)
Theorem issue_then_return_round_trip loan env1 env2 s created s1 updated s2 :
  primary_keys s ->
  create_loan loan env1 s = (Returns created, s1) ->
  return_book (next_loan_id (auto_increment s)) env2 s1 = (Returns updated, s2) ->
  books (tables s2) = books (tables s).
Proof.
  intros (_ & _ & [_ Hlt]) Hissue Hreturn.
  destruct (create_loan_cases loan env1 s) as [(e & He & _)|(E & _)];
    rewrite Hissue in *; cbn [fst snd] in *; [discriminate|].
  destruct (return_book_cases (next_loan_id (auto_increment s)) env2 s1)
    as [(e & He & _)|(found & Hfound & _ & E2 & _)];
    rewrite Hreturn in *; cbn [fst snd] in *; [discriminate|].
  rewrite E2. unfold return_effect. cbn [books].
  rewrite E in *. unfold select_loans, issue_effect in Hfound. cbn [loans books] in *.
  rewrite filter_app in Hfound.
  rewrite (fetched_none Loan.loan_id) in Hfound.
  - cbn in Hfound. rewrite Z.eqb_refl in Hfound. cbn in Hfound.
    injection Hfound as <-. cbn. apply adjust_back.
  - intros l Hl. rewrite Forall_forall in Hlt.
    specialize (Hlt (Loan.loan_id l) (in_map _ _ _ Hl)). lia.
Qed.

Lemma issue_then_return_round_trip_witness :
  primary_keys library
  /\ map Book.available_copies (books (tables lent)) = [0]
  /\ books (tables returned) = books (tables library).
Proof.
  assert (Hk : primary_keys library).
  { unfold primary_keys, keyed. vm_compute.
    repeat split; repeat constructor; intros []. }
  split; [exact Hk|]. split; [reflexivity|].
  apply (issue_then_return_round_trip (LoanBase.of_body 1 1 None None) quiet quiet
           library None lent
           (Some (Loan.mk 1 1 1 (Some 20014) "Returned" 20000 (Some 20000)))
           returned Hk).
  - vm_compute. reflexivity.
  - vm_compute. reflexivity.
Defined.

(** ** Deleting a member or an item *)



(** ** The bounds of the availability counter *)

(** C2, as stated, does not hold: the item create route stores the
    counters of the request as they come, here 5 available copies out of
    a total of 1. *)
Lemma create_book_breaks_bounds :
  bounds_hold empty
  /\ (exists created, fst (create_book overbooked quiet empty) = Returns created)
  /\ map (fun b => (Book.available_copies b, Book.total_copies b))
         (books (tables (snd (create_book overbooked quiet empty)))) = [(5, 1)]
  /\ ~ bounds_hold (snd (create_book overbooked quiet empty)).
Proof.
  split; [constructor|]. split; [eexists; reflexivity|]. split; [reflexivity|].
  intros H. inversion H as [|b bs [_ Hle] _]; subst.
  vm_compute in Hle. now apply Hle.
Qed.

(** C2, amended: start from a storage with fresh generated ids in which
    every item has [0 <= available_copies] and [available_copies] plus
    the number of its loans that are not "Returned" at most
    [total_copies], and in which every loan that is not "Returned" is a
    loan of an item id already generated.  Then after every sequence of
    requests, failing or not, in which each item create comes with
    [0 <= available_copies <= total_copies] and each item update with
    [0 <= available_copies] and [available_copies] plus the number of
    the item's loans that are not "Returned" at most [total_copies],
    every item has [0 <= available_copies <= total_copies]. *)
Theorem bounds_hold_after_fitting_requests reqs s :
  consistent s -> all_fit reqs s -> bounds_hold (serve_all reqs s).
Proof.
  intros Hs Hfit. apply consistent_bounds. now apply serve_all_consistent.
Qed.

Lemma bounds_hold_after_fitting_requests_witness :
  consistent empty
  /\ bounds_hold
       (serve_all [(quiet, POST_members alice); (quiet, POST_books sicp);
                   (read_back_fails, POST_loans (LoanBase.of_body 1 1 None None));
                   (quiet, POST_loans (LoanBase.of_body 1 1 None None));
                   (quiet, PUT_books 1 sicp_second_copy);
                   (quiet, PUT_loans_return 1);
                   (quiet, DELETE_loans 1);
                   (quiet, DELETE_books 1)] empty).
Proof.
  assert (He : consistent empty).
  { split; [|split]; [|constructor|constructor].
    unfold primary_keys, keyed. cbn. repeat split; constructor. }
  split; [exact He|].
  apply (bounds_hold_after_fitting_requests _ empty He).
  cbn [all_fit fits]. repeat split; vm_compute; discriminate.
Defined.

(** ** Failures and the transaction *)

(** C3, as stated, does not hold: when the server fails the SELECT that
    reads the new loan back, the issue request is answered with an error
    although the loan row and the decrement have been committed. *)
Lemma issue_reported_failed_after_commit :
  fst (create_loan (LoanBase.of_body 1 1 None None) read_back_fails library)
  = Raises (HTTPException 500
      "Database error: 2013 (HY000): Lost connection to MySQL server during query")
  /\ loans (tables library) = []
  /\ map Book.available_copies (books (tables library)) = [1]
  /\ loans (tables (snd (create_loan (LoanBase.of_body 1 1 None None)
                           read_back_fails library)))
     = [Loan.mk 1 1 1 (Some 20014) "Borrowed" 20000 None]
  /\ map Book.available_copies
       (books (tables (snd (create_loan (LoanBase.of_body 1 1 None None)
                              read_back_fails library)))) = [0].
Proof. vm_compute. repeat split. Qed.

(** C3, amended: whatever fails and wherever, issue, return and loan
    deletion leave the rows either as they were or with the whole effect
    of the operation, the change of the loan row together with the
    adjustment of the counter.  An operation that fails before its commit
    has completed leaves the rows as they were: this is every failure of
    a loan deletion, and every failure of an issue or a return other than
    a failure of the statement that reads the loan back after the commit
    (the sixth statement of an issue, the fifth of a return). *)
Theorem loan_operations_all_or_nothing env s :
  (forall loan,
     (tables (snd (create_loan loan env s)) = tables s
      \/ tables (snd (create_loan loan env s)) = issue_effect loan env s)
     /\ (forall e, fst (create_loan loan env s) = Raises e ->
                   faults env 5%nat = false ->
                   tables (snd (create_loan loan env s)) = tables s))
  /\ (forall loan_id,
        (snd (return_book loan_id env s) = s
         \/ exists loan,
              hd_error (select_loans loan_id (tables s)) = Some loan
              /\ tables (snd (return_book loan_id env s))
                 = return_effect loan_id loan env s)
        /\ (forall e, fst (return_book loan_id env s) = Raises e ->
                      faults env 4%nat = false ->
                      snd (return_book loan_id env s) = s))
  /\ (forall loan_id,
        (snd (delete_loan loan_id env s) = s
         \/ exists loan,
              hd_error (select_loans loan_id (tables s)) = Some loan
              /\ tables (snd (delete_loan loan_id env s))
                 = delete_loan_effect loan_id loan s)
        /\ (forall e, fst (delete_loan loan_id env s) = Raises e ->
                      snd (delete_loan loan_id env s) = s)).
Proof.
  split; [|split].
  - intros loan.
    destruct (create_loan_cases loan env s)
      as [(e & He & E)|(E & _ & _ & [[created Hc]|[Hf _]])].
    + split; [now left | intros; exact E].
    + split; [now right|]. intros e He. rewrite Hc in He. discriminate.
    + split; [now right|]. intros e _ Hf'. rewrite Hf in Hf'. discriminate.
  - intros loan_id.
    destruct (return_book_cases loan_id env s)
      as [(e & He & E)|(loan & Hloan & _ & E & _ & [Hc|[Hf _]])].
    + split; [now left | intros; exact E].
    + split; [right; eauto|]. intros e He. rewrite Hc in He. discriminate.
    + split; [right; eauto|]. intros e _ Hf'. rewrite Hf in Hf'. discriminate.
  - intros loan_id.
    destruct (delete_loan_cases loan_id env s)
      as [(e & He & E)|(loan & Hloan & Hc & E & _)].
    + split; [now left | intros; exact E].
    + split; [right; eauto|]. intros e He. rewrite Hc in He. discriminate.
Qed.

Lemma loan_operations_all_or_nothing_witness :
  snd (return_book 1 read_back_fails returned) = returned
  /\ snd (delete_loan 9 quiet lent) = lent
  /\ (tables (snd (create_loan (LoanBase.of_body 1 1 None None) read_back_fails library))
      = tables library
      \/ tables (snd (create_loan (LoanBase.of_body 1 1 None None) read_back_fails library))
         = issue_effect (LoanBase.of_body 1 1 None None) read_back_fails library).
Proof.
  destruct (loan_operations_all_or_nothing read_back_fails returned) as (_ & Hr & _).
  destruct (loan_operations_all_or_nothing quiet lent) as (_ & _ & Hd).
  destruct (loan_operations_all_or_nothing read_back_fails library) as (Hi & _).
  split; [|split].
  - apply (proj2 (Hr 1) (HTTPException 400 "Book already returned")); reflexivity.
  - apply (proj2 (Hd 9) (HTTPException 404 "Loan not found")). reflexivity.
  - exact (proj1 (Hi (LoanBase.of_body 1 1 None None))).
Defined.

(** ** The guards of the counter adjustments *)



